(** * Day-of-year calculator (lesson2-class-func/linyifan_day_of_year.cpp)

    The program reads three [int]s [y m d], bumps the February entry of a
    global month-length table when its leap test succeeds, adds the table
    entries of months [1 .. m-1] to the global accumulator [sum], adds either
    [d] or the table entry of month [m], and prints [sum].

    The embedding keeps the two globals and the output stream in an explicit
    store, threads the store through a small state-and-error monad, and marks
    as [Undefined] every execution that indexes outside [month[15]] or
    overflows a signed 32-bit addition. *)

From Stdlib Require Import ZArith List Bool Lia.
Import ListNotations.
Open Scope Z_scope.

(** ** Machine integers *)

Definition INT_MIN : Z := - 2 ^ 31.
Definition INT_MAX : Z := 2 ^ 31 - 1.

(** The values an [int] can hold. *)
Definition in_int (z : Z) : Prop := INT_MIN <= z <= INT_MAX.

Definition in_intb (z : Z) : bool := (INT_MIN <=? z) && (z <=? INT_MAX).

(** ** Outcomes and the store monad *)

Inductive outcome (A : Type) : Type :=
| Ok (a : A)
| Undefined.
Arguments Ok {A} a.
Arguments Undefined {A}.

(** The globals of the translation unit, plus what has been written to
    standard output so far (most recent last). *)
Record state : Type := mkState {
  sum : Z;
  month : list Z;
  cout : list Z
}.

Definition M (A : Type) : Type := state -> outcome (A * state).

Definition ret {A} (a : A) : M A := fun s => Ok (a, s).

Definition bind {A B} (c : M A) (k : A -> M B) : M B :=
  fun s => match c s with
           | Ok (a, s') => k a s'
           | Undefined => Undefined
           end.

Definition undefined {A} : M A := fun _ => Undefined.

Declare Scope prog_scope.
Delimit Scope prog_scope with prog.
Notation "x <- c ;; k" := (bind c (fun x => k))
  (at level 61, c at next level, right associativity) : prog_scope.
Notation "c ;; k" := (bind c (fun _ => k))
  (at level 61, right associativity) : prog_scope.
Open Scope prog_scope.

(** ** Primitive operations *)

(** [a + b] on [int]: signed overflow has no defined result. *)
Definition int_add (a b : Z) : M Z :=
  if in_intb (a + b) then ret (a + b) else undefined.

Definition get_sum : M Z := fun s => Ok (sum s, s).

Definition set_sum (v : Z) : M unit :=
  fun s => Ok (tt, mkState v (month s) (cout s)).

(** [month[i]] as an rvalue: defined only for an index inside the array. *)
Definition month_get (i : Z) : M Z :=
  fun s => if i <? 0 then Undefined
           else match nth_error (month s) (Z.to_nat i) with
                | Some v => Ok (v, s)
                | None => Undefined
                end.

Fixpoint list_set (l : list Z) (n : nat) (v : Z) : option (list Z) :=
  match l, n with
  | [], _ => None
  | _ :: t, O => Some (v :: t)
  | h :: t, S n' => match list_set t n' v with
                    | Some t' => Some (h :: t')
                    | None => None
                    end
  end.

(** [month[i] = v]. *)
Definition month_set (i v : Z) : M unit :=
  fun s => if i <? 0 then Undefined
           else match list_set (month s) (Z.to_nat i) v with
                | Some l => Ok (tt, mkState (sum s) l (cout s))
                | None => Undefined
                end.

(** [cout << v]. *)
Definition print (v : Z) : M unit :=
  fun s => Ok (tt, mkState (sum s) (month s) (cout s ++ [v])).

(** ** The program *)

(** Static initialisation: [int sum;] is zero, and the initialiser list of
    [int month[15]] is padded with zeros. *)
Definition initial : state :=
  mkState 0 [0; 31; 28; 31; 30; 31; 30; 31; 31; 30; 31; 30; 31; 0; 0] [].

(** Line 8: [y%4==0&&(y%100>0||y%400==0)], with C++'s truncating [%]. *)
Definition leap_test (y : Z) : bool :=
  (Z.rem y 4 =? 0) && ((Z.rem y 100 >? 0) || (Z.rem y 400 =? 0)).

(** Lines 8-10. *)
Definition leap_adjust (y : Z) : M unit :=
  if leap_test y then
    v <- month_get 2 ;; v' <- int_add v 1 ;; month_set 2 v'
  else ret tt.

(** Line 12: [sum+=month[i];]. *)
Definition loop_body (i : Z) : M unit :=
  v <- month_get i ;; s <- get_sum ;; s' <- int_add s v ;; set_sum s'.

(** Lines 11-13 as a big-step relation: [for_loop m i s r] holds when the
    loop, entered with counter [i] in store [s], ends with outcome [r].  The
    counter never overflows: it is incremented only while [i < m] and [m] is
    an [int]. *)
Inductive for_loop (m : Z) : Z -> state -> outcome (unit * state) -> Prop :=
| for_exit i s :
    ~ i < m ->
    for_loop m i s (Ok (tt, s))
| for_iter i s s' r :
    i < m ->
    loop_body i s = Ok (tt, s') ->
    for_loop m (i + 1) s' r ->
    for_loop m i s r
| for_undef i s :
    i < m ->
    loop_body i s = Undefined ->
    for_loop m i s Undefined.

(** The same loop as an evaluator.  Neither [i] nor [m] is assigned in the
    body, so the loop entered at [i] runs exactly [m - i] times (none when
    [m <= i]) unless an iteration is undefined. *)
Fixpoint iterate (n : nat) (i : Z) : M unit :=
  match n with
  | O => ret tt
  | S n' => loop_body i ;; iterate n' (i + 1)
  end.

Definition for_loop_exec (m i : Z) : M unit := iterate (Z.to_nat (m - i)) i.

(** Lines 14-18. *)
Definition add_day (m d : Z) : M unit :=
  l <- month_get m ;;
  if d >=? l then
    v <- month_get m ;; s <- get_sum ;; s' <- int_add s v ;; set_sum s'
  else
    s <- get_sum ;; s' <- int_add s d ;; set_sum s'.

(** Lines 19-20. *)
Definition finish : M Z :=
  s <- get_sum ;; print s ;; ret 0.

(** [main], with the three values extracted from [cin] as arguments. *)
Definition main (y m d : Z) : M Z :=
  leap_adjust y ;; for_loop_exec m 1 ;; add_day m d ;; finish.

(** [main] with the loop given by its relation. *)
Definition main_rel (y m d : Z) (s : state) (r : outcome (Z * state)) : Prop :=
  match leap_adjust y s with
  | Undefined => r = Undefined
  | Ok (_, s1) =>
      exists r1, for_loop m 1 s1 r1 /\
        r = match r1 with
            | Ok (_, s2) => (add_day m d ;; finish) s2
            | Undefined => Undefined
            end
  end.

Definition output {A} (r : outcome (A * state)) : outcome (list Z) :=
  match r with
  | Ok (_, s) => Ok (cout s)
  | Undefined => Undefined
  end.

(** What one run of the program writes to standard output. *)
Definition compute (y m d : Z) : outcome (list Z) :=
  output (main y m d initial).

(** A run from freshly initialised globals, loop taken relationally. *)
Definition prints (y m d : Z) (o : outcome (list Z)) : Prop :=
  exists r, main_rel y m d initial r /\ o = output r.

(** ** The calendar, in the specification's words *)

(** Second definition, following the specification: a year is a leap year
    iff [year % 4 == 0 AND (year % 100 != 0 OR year % 400 == 0)]. *)
Definition is_leap (y : Z) : bool :=
  (Z.rem y 4 =? 0) && (negb (Z.rem y 100 =? 0) || (Z.rem y 400 =? 0)).

(** Standard Gregorian month lengths, 29 for February in a leap year. *)
Definition days_in (leap : bool) (mo : Z) : Z :=
  match mo with
  | 1 => 31 | 2 => if leap then 29 else 28 | 3 => 31 | 4 => 30
  | 5 => 31 | 6 => 30 | 7 => 31 | 8 => 31
  | 9 => 30 | 10 => 31 | 11 => 30 | 12 => 31
  | _ => 0
  end.

(** The months strictly before [mo]: [1; 2; ...; mo - 1]. *)
Definition months_before (mo : Z) : list Z :=
  map Z.of_nat (seq 1 (Z.to_nat (mo - 1))).

Definition total (l : list Z) : Z := fold_right Z.add 0 l.

Definition days_before (leap : bool) (mo : Z) : Z :=
  total (map (days_in leap) (months_before mo)).

(** Conventional ordinal day-of-year: the lengths of all earlier months of
    that year, plus the day. *)
Definition day_of_year (y mo d : Z) : Z :=
  days_before (is_leap y) mo + d.

Definition days_in_year (y : Z) : Z := if is_leap y then 366 else 365.

(** A date of the Gregorian calendar. *)
Definition valid_date (y mo d : Z) : Prop :=
  1 <= mo <= 12 /\ 1 <= d <= days_in (is_leap y) mo.

(** ** Derived views of the program *)

(** The table as lines 8-10 leave it ([leap_adjust_initial] below). *)
Definition table (leap : bool) : list Z :=
  [0; 31; if leap then 29 else 28; 31; 30; 31; 30; 31; 31; 30; 31; 30; 31; 0; 0].

(** The globals at line 11 of a run for year [y]. *)
Definition month_after_adjust (y : Z) : outcome (list Z) :=
  match leap_adjust y initial with
  | Ok (_, s) => Ok (month s)
  | Undefined => Undefined
  end.

(** The entry [month[m]] that line 14 compares [d] with. *)
Definition month_entry (y m : Z) : Z :=
  match leap_adjust y initial with
  | Ok (_, s) => nth (Z.to_nat m) (month s) 0
  | Undefined => 0
  end.

(** What lines 14-18 add for the day: [d], capped by the entry [l]. *)
Definition capped (d l : Z) : Z := if d >=? l then l else d.

(** The table when [main] returns. *)
Definition month_at_exit (y m d : Z) : outcome (list Z) :=
  match main y m d initial with
  | Ok (_, s) => Ok (month s)
  | Undefined => Undefined
  end.

(** ** Machine integers and the monad on concrete stores *)

Lemma in_intb_spec z : in_intb z = true <-> in_int z.
Proof.
  unfold in_intb, in_int. rewrite andb_true_iff, !Z.leb_le. tauto.
Qed.

Lemma in_intb_true z : in_int z -> in_intb z = true.
Proof. apply in_intb_spec. Qed.

Lemma bind_ok {A B} (c : M A) (k : A -> M B) s a s' :
  c s = Ok (a, s') -> bind c k s = k a s'.
Proof. unfold bind. intros ->. reflexivity. Qed.

Lemma bind_undef {A B} (c : M A) (k : A -> M B) s :
  c s = Undefined -> bind c k s = Undefined.
Proof. unfold bind. intros ->. reflexivity. Qed.

Lemma int_add_ok a b s : in_int (a + b) -> int_add a b s = Ok (a + b, s).
Proof.
  intros H. unfold int_add. rewrite (in_intb_true _ H). reflexivity.
Qed.

Lemma month_get_ok i s v :
  0 <= i -> nth_error (month s) (Z.to_nat i) = Some v ->
  month_get i s = Ok (v, s).
Proof.
  intros Hi Hn. unfold month_get.
  destruct (Z.ltb_spec i 0) as [Hlt|_]; [lia|]. rewrite Hn. reflexivity.
Qed.

Lemma loop_body_ok i s v :
  0 <= i -> nth_error (month s) (Z.to_nat i) = Some v ->
  in_int (sum s + v) ->
  loop_body i s = Ok (tt, mkState (sum s + v) (month s) (cout s)).
Proof.
  intros Hi Hn Hs. unfold loop_body.
  rewrite (bind_ok _ _ _ _ _ (month_get_ok i s v Hi Hn)).
  unfold bind at 1; unfold get_sum.
  rewrite (bind_ok _ _ _ _ _ (int_add_ok _ _ s Hs)).
  reflexivity.
Qed.

(** ** The loop *)

(** The body only ever writes [sum]. *)
Lemma loop_body_frame i s s' :
  loop_body i s = Ok (tt, s') -> month s' = month s /\ cout s' = cout s.
Proof.
  unfold loop_body, bind, month_get, get_sum, int_add, set_sum, ret, undefined.
  destruct (i <? 0); [discriminate|].
  destruct (nth_error (month s) (Z.to_nat i)); [|discriminate].
  destruct (in_intb (sum s + z)); [|discriminate].
  intros [= <-]. split; reflexivity.
Qed.

Lemma for_loop_frame m i s r :
  for_loop m i s r ->
  forall s', r = Ok (tt, s') -> month s' = month s /\ cout s' = cout s.
Proof.
  induction 1 as [i s _ | i s s1 r _ Hb _ IH | i s _ _]; intros s2 Hr.
  - injection Hr as <-. split; reflexivity.
  - destruct (IH _ Hr) as [Hm Hc].
    destruct (loop_body_frame _ _ _ Hb) as [Hm' Hc'].
    split; congruence.
  - discriminate.
Qed.

(** The relation is functional. *)
Lemma for_loop_det m i s r1 :
  for_loop m i s r1 -> forall r2, for_loop m i s r2 -> r1 = r2.
Proof.
  induction 1 as [i s Hge | i s s1 r Hlt Hb _ IH | i s Hlt Hb];
    intros r2 H2; inversion H2; subst; try contradiction; try congruence.
  apply IH.
  match goal with
  | H1 : loop_body i s = Ok (tt, ?a), H3 : for_loop m (i + 1) ?b r2 |- _ =>
      replace a with b by congruence; exact H3
  end.
Qed.

(** The evaluator computes the relation, so every entry state has an
    outcome. *)
Lemma iterate_for_loop m n :
  forall i s, n = Z.to_nat (m - i) -> for_loop m i s (iterate n i s).
Proof.
  induction n as [|n IH]; intros i s Hn; simpl.
  - apply for_exit. lia.
  - assert (Hlt : i < m) by lia.
    unfold bind. destruct (loop_body i s) as [[[] s']|] eqn:Hb.
    + eapply for_iter; eauto. apply IH. lia.
    + apply for_undef; assumption.
Qed.

Lemma for_loop_exec_sound m i s : for_loop m i s (for_loop_exec m i s).
Proof. apply iterate_for_loop. reflexivity. Qed.

Lemma for_loop_exec_complete m i s r :
  for_loop m i s r -> r = for_loop_exec m i s.
Proof.
  intros H. apply (for_loop_det _ _ _ _ H). apply for_loop_exec_sound.
Qed.

Lemma main_rel_main y m d s : main_rel y m d s (main y m d s).
Proof.
  unfold main_rel, main, bind.
  destruct (leap_adjust y s) as [[[] s1]|]; [|reflexivity].
  exists (for_loop_exec m 1 s1). split; [apply for_loop_exec_sound|].
  destruct (for_loop_exec m 1 s1) as [[[] s2]|]; reflexivity.
Qed.

Lemma main_rel_det y m d s r1 r2 :
  main_rel y m d s r1 -> main_rel y m d s r2 -> r1 = r2.
Proof.
  unfold main_rel.
  destruct (leap_adjust y s) as [[[] s1]|]; [|congruence].
  intros (a & Ha & ->) (b & Hb & ->).
  rewrite (for_loop_det _ _ _ _ Ha _ Hb). reflexivity.
Qed.

Lemma prints_compute y m d : prints y m d (compute y m d).
Proof. exists (main y m d initial). split; [apply main_rel_main|reflexivity]. Qed.

(** *** What the loop adds *)

Lemma skipn_cons_nth (t : list Z) :
  forall k v, nth_error t k = Some v -> skipn k t = v :: skipn (S k) t.
Proof.
  induction t as [|h t IH]; intros [|k] v H; simpl in *; try discriminate.
  - injection H as ->. reflexivity.
  - apply IH. exact H.
Qed.

Lemma nth_error_in_range (t : list Z) k :
  (k < length t)%nat -> exists v, nth_error t k = Some v.
Proof.
  intros H. destruct (nth_error t k) as [v|] eqn:E; [eauto|].
  apply nth_error_None in E. lia.
Qed.

(** Loop invariant: [n] iterations from counter [i] add the [n] entries
    [month[i] .. month[i+n-1]], as long as they lie inside the array.  With
    entries between 0 and 31 the running sum cannot overflow. *)
Lemma iterate_sum n :
  forall i s,
    0 <= i ->
    (Z.to_nat i + n <= length (month s))%nat ->
    Forall (fun v => 0 <= v <= 31) (month s) ->
    0 <= sum s ->
    sum s + 31 * Z.of_nat n <= INT_MAX ->
    iterate n i s =
    Ok (tt, mkState (sum s + total (firstn n (skipn (Z.to_nat i) (month s))))
                    (month s) (cout s)).
Proof.
  induction n as [|n IH]; intros i s Hi Hlen Hall Hs Hmax.
  - simpl. unfold ret. destruct s as [a t c]; simpl.
    rewrite Z.add_0_r. reflexivity.
  - destruct (nth_error_in_range (month s) (Z.to_nat i)) as [v Hv]; [lia|].
    assert (Hb : 0 <= v <= 31).
    { rewrite Forall_forall in Hall. apply Hall.
      eapply nth_error_In; eassumption. }
    assert (Hin : in_int (sum s + v)).
    { unfold in_int, INT_MIN. unfold INT_MAX in *. lia. }
    cbn [iterate].
    rewrite (bind_ok _ _ _ _ _ (loop_body_ok i s v Hi Hv Hin)).
    rewrite IH; cbn [sum month cout]; try assumption; try lia.
    + replace (Z.to_nat (i + 1)) with (S (Z.to_nat i)) by lia.
      rewrite (skipn_cons_nth _ _ _ Hv). cbn [firstn total fold_right].
      fold (total (firstn n (skipn (S (Z.to_nat i)) (month s)))).
      rewrite Z.add_assoc. reflexivity.
Qed.

(** *** Facts about the concrete table *)

Lemma leap_adjust_initial y :
  leap_adjust y initial = Ok (tt, mkState 0 (table (leap_test y)) []).
Proof.
  unfold leap_adjust. destruct (leap_test y); reflexivity.
Qed.

Lemma table_length b : length (table b) = 15%nat.
Proof. reflexivity. Qed.

Lemma table_bounds b : Forall (fun v => 0 <= v <= 31) (table b).
Proof.
  destruct b; repeat (constructor; [lia|]); constructor.
Qed.

Lemma small_index_cases m :
  0 <= m <= 14 -> In m [0; 1; 2; 3; 4; 5; 6; 7; 8; 9; 10; 11; 12; 13; 14].
Proof. intros H. simpl. lia. Qed.

Ltac each_index H :=
  apply small_index_cases in H; simpl in H;
  repeat (destruct H as [<-|H]); [..|contradiction].

(** Indices 0, 13 and 14 hold zero, indices 1-12 the month lengths. *)
Lemma table_entry b m :
  0 <= m <= 14 -> nth_error (table b) (Z.to_nat m) = Some (days_in b m).
Proof. intros H. each_index H; reflexivity. Qed.

Lemma table_prefix b m :
  0 <= m <= 14 ->
  total (firstn (Z.to_nat (m - 1)) (skipn 1 (table b))) = days_before b m.
Proof. intros H. each_index H; destruct b; reflexivity. Qed.

Lemma days_before_bounds b m : 0 <= m <= 14 -> 0 <= days_before b m <= 366.
Proof. intros H. each_index H; destruct b; vm_compute; split; discriminate. Qed.

Lemma days_in_bounds b m : 0 <= days_in b m <= 31.
Proof.
  destruct (Z_le_gt_dec 0 m) as [H0|H0].
  - destruct (Z_le_gt_dec m 14) as [H1|H1].
    + assert (H : 0 <= m <= 14) by lia.
      each_index H; destruct b; vm_compute; split; discriminate.
    + destruct m as [|p|p]; try lia.
      unfold days_in.
      do 4 (destruct p as [p|p|]; try lia; try (simpl; lia)).
  - destruct m; simpl; lia.
Qed.

(** *** Lines 14-20 *)

Lemma add_day_ok m d s l :
  0 <= m ->
  nth_error (month s) (Z.to_nat m) = Some l ->
  (l <= d -> in_int (sum s + l)) ->
  (d < l -> in_int (sum s + d)) ->
  add_day m d s =
  Ok (tt, mkState (sum s + (if d >=? l then l else d)) (month s) (cout s)).
Proof.
  intros Hm Hn Hl Hd. unfold add_day.
  rewrite (bind_ok _ _ _ _ _ (month_get_ok m s l Hm Hn)).
  destruct (Z.geb_spec d l) as [Hge|Hlt].
  - rewrite (bind_ok _ _ _ _ _ (month_get_ok m s l Hm Hn)).
    unfold bind at 1; unfold get_sum.
    rewrite (bind_ok _ _ _ _ _ (int_add_ok _ _ s (Hl Hge))). reflexivity.
  - unfold bind at 1; unfold get_sum.
    rewrite (bind_ok _ _ _ _ _ (int_add_ok _ _ s (Hd Hlt))). reflexivity.
Qed.

Lemma capped_min d l : capped d l = Z.min d l.
Proof.
  unfold capped. rewrite Z.geb_leb.
  destruct (Z.leb_spec l d); lia.
Qed.

(** ** The whole run, for every month index that stays inside the array *)

Lemma main_initial y m d :
  0 <= m <= 14 -> in_int d ->
  let b := leap_test y in
  let v := days_before b m + capped d (days_in b m) in
  main y m d initial = Ok (0, mkState v (table b) [v]).
Proof.
  intros Hm Hd b v. unfold main.
  rewrite (bind_ok _ _ _ _ _ (leap_adjust_initial y)). fold b.
  assert (Hloop : for_loop_exec m 1 (mkState 0 (table b) []) =
                  Ok (tt, mkState (days_before b m) (table b) [])).
  { unfold for_loop_exec. rewrite iterate_sum; cbn [sum month cout].
    - change (Z.to_nat 1) with 1%nat. rewrite table_prefix by assumption.
      reflexivity.
    - lia.
    - rewrite table_length. lia.
    - apply table_bounds.
    - lia.
    - unfold INT_MAX. lia. }
  rewrite (bind_ok _ _ _ _ _ Hloop).
  pose proof (days_before_bounds b m Hm) as Hdb.
  pose proof (days_in_bounds b m) as Hdi.
  assert (Hadd : add_day m d (mkState (days_before b m) (table b) []) =
                 Ok (tt, mkState v (table b) [])).
  { rewrite (add_day_ok m d _ (days_in b m)); cbn [sum month cout].
    - reflexivity.
    - lia.
    - apply table_entry; assumption.
    - intros _. unfold in_int, INT_MIN, INT_MAX. lia.
    - intros Hlt. unfold in_int, INT_MIN, INT_MAX in *. lia. }
  rewrite (bind_ok _ _ _ _ _ Hadd). reflexivity.
Qed.

Lemma compute_capped y m d :
  0 <= m <= 14 -> in_int d ->
  compute y m d =
  Ok [days_before (leap_test y) m + capped d (days_in (leap_test y) m)].
Proof.
  intros Hm Hd. unfold compute. rewrite (main_initial y m d Hm Hd). reflexivity.
Qed.

(** ** The leap test against the calendar rule *)

(** The specification's predicate is the Gregorian rule on every integer:
    divisible by 4, and not by 100 unless by 400. *)
Lemma is_leap_divide y :
  is_leap y = true <-> (4 | y) /\ (~ (100 | y) \/ (400 | y)).
Proof.
  unfold is_leap.
  rewrite andb_true_iff, orb_true_iff, negb_true_iff, Z.eqb_neq, !Z.eqb_eq.
  rewrite !Z.rem_divide by discriminate. reflexivity.
Qed.

(** From year 0 on, [y%100>0] and [y%100!=0] coincide. *)
Lemma leap_test_nonneg y : 0 <= y -> leap_test y = is_leap y.
Proof.
  intros Hy. unfold leap_test, is_leap. f_equal. f_equal.
  pose proof (Z.rem_nonneg y 100 ltac:(discriminate) Hy) as Hr.
  destruct (Z.eqb_spec (Z.rem y 100) 0) as [->|Hne]; [reflexivity|].
  simpl. apply Z.gtb_lt. lia.
Qed.

(** Before year 0 the remainder [y%100] is never positive, so only the
    multiples of 400 pass the test. *)
Lemma leap_test_negative y : y < 0 -> leap_test y = (Z.rem y 400 =? 0).
Proof.
  intros Hy. unfold leap_test.
  pose proof (Z.rem_nonpos y 100 ltac:(discriminate) ltac:(lia)) as Hr.
  replace (Z.rem y 100 >? 0) with false
    by (symmetry; rewrite Z.gtb_ltb; apply Z.ltb_ge; exact Hr).
  simpl. destruct (Z.eqb_spec (Z.rem y 400) 0) as [H400|_].
  - rewrite andb_true_r. apply Z.eqb_eq.
    apply Z.rem_divide in H400; [|discriminate].
    apply Z.rem_divide; [discriminate|].
    destruct H400 as [k ->]. exists (k * 100). lia.
  - apply andb_false_r.
Qed.

Lemma month_entry_table y m :
  0 <= m <= 14 -> month_entry y m = days_in (leap_test y) m.
Proof.
  intros Hm. unfold month_entry. rewrite leap_adjust_initial. cbn [month].
  pose proof (table_entry (leap_test y) m Hm) as H.
  apply nth_error_nth with (d := 0) in H. exact H.
Qed.

(** The program uses 29 for February exactly when its own test succeeds. *)
Lemma february_entry y : month_entry y 2 = if leap_test y then 29 else 28.
Proof. rewrite month_entry_table by lia. reflexivity. Qed.

(** From year 0 on the entry is the calendar length of the month. *)
Lemma month_entry_calendar y m :
  0 <= y -> 1 <= m <= 12 -> month_entry y m = days_in (is_leap y) m.
Proof.
  intros Hy Hm. rewrite month_entry_table by lia.
  rewrite leap_test_nonneg by assumption. reflexivity.
Qed.

(** ** The table after the adjustment *)

Lemma month_after_adjust_table y :
  month_after_adjust y = Ok (table (leap_test y)).
Proof. unfold month_after_adjust. rewrite leap_adjust_initial. reflexivity. Qed.

Lemma add_day_frame m d s s' :
  add_day m d s = Ok (tt, s') -> month s' = month s.
Proof.
  unfold add_day, bind, month_get, get_sum, int_add, set_sum, ret, undefined.
  destruct (m <? 0); [discriminate|].
  destruct (nth_error (month s) (Z.to_nat m)) as [l|] eqn:E; [|discriminate].
  destruct (d >=? l).
  - rewrite E. destruct (in_intb (sum s + l)); [|discriminate].
    intros [= <-]. reflexivity.
  - destruct (in_intb (sum s + d)); [|discriminate]. intros [= <-]. reflexivity.
Qed.

(** Nothing after line 10 writes the table: whatever [m] and [d] are, a run
    that returns leaves the table as the adjustment made it. *)
Lemma table_frozen y m d :
  forall r s, main y m d initial = Ok (r, s) -> month s = table (leap_test y).
Proof.
  intros r s. unfold main.
  rewrite (bind_ok _ _ _ _ _ (leap_adjust_initial y)).
  unfold bind at 1.
  destruct (for_loop_exec m 1 _) as [[[] s1]|] eqn:Hloop; [|discriminate].
  pose proof (for_loop_exec_sound m 1 (mkState 0 (table (leap_test y)) [])) as Hrel.
  rewrite Hloop in Hrel.
  destruct (for_loop_frame _ _ _ _ Hrel s1 eq_refl) as [Hm1 _].
  cbn [month] in Hm1.
  unfold bind at 1.
  destruct (add_day m d s1) as [[[] s2]|] eqn:Hadd; [|discriminate].
  apply add_day_frame in Hadd.
  unfold finish, bind, get_sum, print, ret. intros [= _ <-].
  cbn [month]. congruence.
Qed.

(** ** The claims restricted to years from 0 on

    On these years the leap test agrees with the calendar rule, and the
    program's output can be compared with the calendar directly. *)

Section NonNegativeYears.

Variables y m d : Z.
Hypothesis year_nonneg : 0 <= y.
Hypothesis month_valid : 1 <= m <= 12.

Lemma compute_nonneg :
  in_int d ->
  compute y m d = Ok [days_before (is_leap y) m + capped d (days_in (is_leap y) m)].
Proof.
  intros Hd. rewrite compute_capped by (assumption || lia).
  rewrite leap_test_nonneg by assumption. reflexivity.
Qed.

Lemma valid_day_in_int b : 1 <= d <= days_in b m -> in_int d.
Proof.
  intros H. pose proof (days_in_bounds b m).
  unfold in_int, INT_MIN, INT_MAX. lia.
Qed.

(** Valid dates get their ordinal day-of-year. *)
Lemma day_of_year_correct :
  valid_date y m d -> compute y m d = Ok [day_of_year y m d].
Proof.
  intros [_ Hd]. rewrite compute_nonneg by (eapply valid_day_in_int; eauto).
  unfold day_of_year. rewrite capped_min.
  do 3 f_equal. lia.
Qed.

(** A day at or past the month's length yields the ordinal of the month's
    last day. *)
Lemma overflow_clamps :
  in_int d -> days_in (is_leap y) m <= d ->
  compute y m d = Ok [day_of_year y m (days_in (is_leap y) m)].
Proof.
  intros Hd Hge. rewrite compute_nonneg by assumption.
  unfold day_of_year. rewrite capped_min. do 3 f_equal. lia.
Qed.

(** A day below the month's length is added as it is. *)
Lemma below_length_added :
  in_int d -> d < days_in (is_leap y) m ->
  compute y m d = Ok [days_before (is_leap y) m + d].
Proof.
  intros Hd Hlt. rewrite compute_nonneg by assumption.
  rewrite capped_min. do 3 f_equal. lia.
Qed.

(** The February entry follows the calendar rule, and stays. *)
Lemma table_invariant :
  month_after_adjust y = Ok (table (is_leap y)) /\
  (in_int d -> month_at_exit y m d = Ok (table (is_leap y))).
Proof.
  rewrite <- leap_test_nonneg by assumption. split.
  - apply month_after_adjust_table.
  - intros Hd. unfold month_at_exit.
    rewrite main_initial by (assumption || lia). reflexivity.
Qed.

End NonNegativeYears.

(** Months 13 and 14 read the two zero entries that pad the array. *)
Lemma month_overrun y m d :
  0 <= y -> m = 13 \/ m = 14 -> 0 <= d -> in_int d ->
  compute y m d = Ok [days_in_year y].
Proof.
  intros Hy Hm Hd Hi. rewrite compute_capped by (assumption || lia).
  rewrite leap_test_nonneg by assumption. unfold days_in_year.
  assert (Hc : capped d (days_in (is_leap y) m) = 0).
  { rewrite capped_min. destruct Hm as [-> | ->]; simpl; lia. }
  rewrite Hc. destruct Hm as [-> | ->]; destruct (is_leap y); reflexivity.
Qed.

(** ** The claims *)

(** C1. Every valid date gets its conventional ordinal day-of-year.  This
    breaks on leap years before year 0: 1 March of year -4 is a valid date
    whose ordinal is 61 (31 + 29 + 1), and the program prints 60, because
    its leap test rejects the year.  ([day_of_year_correct] is the claim on
    years from 0 on.) *)
Theorem march_first_of_minus_four :
  valid_date (-4) 3 1 /\
  day_of_year (-4) 3 1 = 61 /\
  compute (-4) 3 1 = Ok [60].
Proof.
  repeat split; try reflexivity; vm_compute; discriminate.
Qed.

(** C2. The program uses 29 days for February exactly when
    [year % 4 == 0 AND (year % 100 != 0 OR year % 400 == 0)].  Year -4
    satisfies the condition ([-4 % 100] is [-4], not zero), yet line 8 asks
    for [y%100>0]: the test fails and February keeps 28 days. *)
Theorem leap_test_rejects_minus_four :
  is_leap (-4) = true /\
  Z.rem (-4) 100 = -4 /\
  leap_test (-4) = false /\
  month_entry (-4) 2 = 28.
Proof. repeat split; reflexivity. Qed.

(** C3 as stated fails: with [day < 1] the program does not clamp to the
    month's last day.  For 2023-01-00 it prints 0, not 31. *)
Lemma day_zero_is_not_clamped :
  1 <= 1 <= 12 /\ 0 < 1 /\
  compute 2023 1 0 = Ok [0] /\
  compute 2023 1 0 <>
    Ok [days_before (is_leap 2023) 1 + days_in (is_leap 2023) 1].
Proof.
  repeat split; try reflexivity; try lia. vm_compute. discriminate.
Qed.

(** C3, amended. For every year from 0 on and every month 1-12, a day below
    1 takes the else branch of line 14 and is added as it is: the result is
    the sum of the lengths of months 1 through month-1 plus day. *)
Theorem day_below_one_is_added (y m d : Z) :
  0 <= y -> 1 <= m <= 12 -> in_int d -> d < 1 ->
  compute y m d = Ok [days_before (is_leap y) m + d].
Proof.
  intros Hy Hm Hi Hd. apply below_length_added; try assumption.
  assert (28 <= days_in (is_leap y) m).
  { assert (H : 0 <= m <= 14) by lia.
    each_index H; try lia; destruct (is_leap y); simpl; lia. }
  lia.
Qed.

Lemma day_below_one_is_added_witness :
  compute 2024 3 (-5) = Ok [days_before (is_leap 2024) 3 + -5].
Proof.
  apply (day_below_one_is_added 2024 3 (-5)).
  - lia.
  - lia.
  - unfold in_int, INT_MIN, INT_MAX. lia.
  - lia.
Defined.

(** C4. A day past the month's length yields the ordinal day-of-year of the
    month's last day.  [compute 2023 1 300] is 31 as claimed, but in year -4
    (a leap year the test rejects) day 32 of March yields 90 where 31 March
    is day 91.  ([overflow_clamps] is the claim on years from 0 on.) *)
Theorem march_overflow_of_minus_four :
  compute 2023 1 300 = Ok [31] /\
  days_in (is_leap (-4)) 3 < 32 /\
  day_of_year (-4) 3 (days_in (is_leap (-4)) 3) = 91 /\
  compute (-4) 3 32 = Ok [90].
Proof. repeat split; reflexivity. Qed.

(** C5. A day equal to the month's length takes the overflow branch and
    still yields the correct ordinal.  [compute 2023 1 31] is 31 as claimed,
    but 31 March of year -4 is day 91 and the program prints 90. *)
Theorem march_last_of_minus_four :
  compute 2023 1 31 = Ok [31] /\
  days_in (is_leap (-4)) 3 = 31 /\
  day_of_year (-4) 3 31 = 91 /\
  compute (-4) 3 31 = Ok [90].
Proof. repeat split; reflexivity. Qed.

(** C6. The three scenarios of the specification: 1 March 2024 is day 61,
    31 December 2023 is day 365, 31 December 2024 is day 366. *)
Theorem spec_scenarios :
  compute 2024 3 1 = Ok [61] /\
  compute 2023 12 31 = Ok [365] /\
  compute 2024 12 31 = Ok [366].
Proof. repeat split; reflexivity. Qed.

(** The relational reading of a run is functional: it assigns one outcome
    to an input, either the printed list or [Undefined].  For a month
    outside 0..14 this says nothing about what a compiled program writes:
    that depends on what lies behind [month[15]] in memory. *)
Theorem prints_deterministic (y m d : Z) (o1 o2 : outcome (list Z)) :
  prints y m d o1 -> prints y m d o2 -> o1 = o2.
Proof.
  intros (r1 & H1 & ->) (r2 & H2 & ->).
  rewrite (main_rel_det _ _ _ _ _ _ H1 H2). reflexivity.
Qed.

Lemma prints_deterministic_witness :
  prints 2024 3 1 (Ok [61]) /\ Ok [61] = compute 2024 3 1.
Proof.
  assert (H : prints 2024 3 1 (Ok [61])).
  { exists (main 2024 3 1 initial). split.
    - apply main_rel_main.
    - reflexivity. }
  split.
  - exact H.
  - apply (prints_deterministic 2024 3 1 (Ok [61]) (compute 2024 3 1)).
    + exact H.
    + apply prints_compute.
Defined.

(** The globals are initialised once per process.  Were [main] entered a
    second time on the globals the first call left behind, the same input
    would print something else: determinism is a property of whole runs. *)
Remark second_call_on_used_globals :
  exists s, main 2024 3 1 initial = Ok (0, s) /\
            cout s = [61] /\
            output (main 2024 3 1 s) = Ok [61; 123].
Proof. eexists. repeat split. Qed.

(** C8. After the adjustment the table holds the non-leap lengths, except
    that February is 29 when the leap-year predicate holds, and it does not
    change afterwards.  For year -4 the predicate holds and the February
    entry is 28, from the adjustment to the end of the run.
    ([table_invariant] and [table_frozen] are the claim on years from 0 on
    and the claim with the program's own test.) *)
Theorem february_of_minus_four :
  is_leap (-4) = true /\
  month_after_adjust (-4) =
    Ok [0; 31; 28; 31; 30; 31; 30; 31; 31; 30; 31; 30; 31; 0; 0] /\
  month_at_exit (-4) 3 1 =
    Ok [0; 31; 28; 31; 30; 31; 30; 31; 31; 30; 31; 30; 31; 0; 0].
Proof. repeat split; reflexivity. Qed.

(** C9. For month 13 or 14 and a day from 0 on, every table access is
    inside the array and the output is the number of days in the year.
    The accesses are in bounds (the run is [Ok]), but for the leap year -4
    the program prints 365, not 366.  ([month_overrun] is the claim on
    years from 0 on.) *)
Theorem overrun_of_minus_four :
  days_in_year (-4) = 366 /\
  compute (-4) 13 0 = Ok [365] /\
  compute (-4) 14 0 = Ok [365].
Proof. repeat split; reflexivity. Qed.

(** Relative to the table entry [month[m]] that line 14 compares with, the
    result is monotone nondecreasing in day over all [int] values: it grows
    by exactly 1 per day while day is below the entry, and equals the
    result at the entry from there on. *)
Theorem compute_monotone_in_day (y m d d' : Z) :
  1 <= m <= 12 -> in_int d -> in_int d' -> d <= d' ->
  exists v v',
    compute y m d = Ok [v] /\ compute y m d' = Ok [v'] /\ v <= v' /\
    (d < month_entry y m -> compute y m (d + 1) = Ok [v + 1]) /\
    (month_entry y m <= d -> compute y m d = compute y m (month_entry y m)).
Proof.
  intros Hm Hd Hd' Hle.
  assert (Hm' : 0 <= m <= 14) by lia.
  rewrite (month_entry_table y m Hm').
  set (b := leap_test y).
  pose proof (days_in_bounds b m) as Hl.
  exists (days_before b m + capped d (days_in b m)),
         (days_before b m + capped d' (days_in b m)).
  rewrite !compute_capped by assumption. fold b.
  split; [reflexivity|]. split; [reflexivity|].
  rewrite !capped_min. split; [lia|]. split.
  - intros Hlt.
    rewrite compute_capped;
      [|assumption|unfold in_int, INT_MIN, INT_MAX in *; lia].
    fold b. rewrite capped_min. do 2 f_equal. lia.
  - intros Hge.
    rewrite compute_capped;
      [|assumption|unfold in_int, INT_MIN, INT_MAX in *; lia].
    fold b. rewrite capped_min. do 2 f_equal. lia.
Qed.

Lemma compute_monotone_in_day_witness :
  exists v v',
    compute 2024 2 28 = Ok [v] /\ compute 2024 2 300 = Ok [v'] /\ v <= v' /\
    (28 < month_entry 2024 2 -> compute 2024 2 (28 + 1) = Ok [v + 1]) /\
    (month_entry 2024 2 <= 28 ->
     compute 2024 2 28 = compute 2024 2 (month_entry 2024 2)).
Proof.
  apply (compute_monotone_in_day 2024 2 28 300).
  - lia.
  - unfold in_int, INT_MIN, INT_MAX. lia.
  - unfold in_int, INT_MIN, INT_MAX. lia.
  - lia.
Defined.

(** From year 0 on the same holds with the calendar length of the month. *)
Lemma monotone_in_day_from_year_zero (y m d d' : Z) :
  0 <= y -> 1 <= m <= 12 -> in_int d -> in_int d' -> d <= d' ->
  exists v v',
    compute y m d = Ok [v] /\ compute y m d' = Ok [v'] /\ v <= v' /\
    (d < days_in (is_leap y) m -> compute y m (d + 1) = Ok [v + 1]) /\
    (days_in (is_leap y) m <= d ->
     compute y m d = compute y m (days_in (is_leap y) m)).
Proof.
  intros Hy Hm Hd Hd' Hle.
  rewrite <- (month_entry_calendar y m Hy Hm).
  apply compute_monotone_in_day; assumption.
Qed.

(** C10. For a fixed year and a month 1-12 the result grows by exactly 1
    per day while day is below the month's length, and is constant from the
    month's length on.  February of the leap year -4 has 29 days and day 28
    is below that length, yet day 28 and day 29 both give 59: line 14
    compares with the entry 28 that the leap test of line 8 left in place.
    ([monotone_in_day_from_year_zero] is the claim on years from 0 on.) *)
Theorem february_28_of_minus_four :
  1 <= 2 <= 12 /\
  is_leap (-4) = true /\
  days_in (is_leap (-4)) 2 = 29 /\
  28 < days_in (is_leap (-4)) 2 /\
  compute (-4) 2 28 = Ok [59] /\
  compute (-4) 2 (28 + 1) = Ok [59] /\
  month_entry (-4) 2 = 28.
Proof.
  repeat split; try reflexivity; vm_compute; discriminate.
Qed.

(** ** Further properties of the run *)

(** *** Where the run leaves the array *)

Lemma iterate_past_end n :
  forall i s,
    0 <= i <= 15 -> length (month s) = 15%nat -> 15 < i + Z.of_nat n ->
    iterate n i s = Undefined.
Proof.
  induction n as [|n IH]; intros i s Hi Hlen Hn.
  - lia.
  - cbn [iterate]. unfold bind.
    destruct (loop_body i s) as [[[] s1]|] eqn:Hb; [|reflexivity].
    destruct (Z.eq_dec i 15) as [->|Hne].
    + exfalso. revert Hb.
      unfold loop_body, bind, month_get. simpl (15 <? 0).
      replace (nth_error (month s) (Z.to_nat 15)) with (@None Z);
        [discriminate|].
      symmetry. apply nth_error_None. rewrite Hlen. reflexivity.
    + destruct (loop_body_frame _ _ _ Hb) as [Hm _].
      apply IH; [lia|congruence|lia].
Qed.

Lemma month_get_outside i s :
  i < 0 \/ Z.of_nat (length (month s)) <= i -> month_get i s = Undefined.
Proof.
  intros H. unfold month_get.
  destruct (Z.ltb_spec i 0) as [_|Hi]; [reflexivity|].
  destruct H as [H|H]; [lia|].
  replace (nth_error (month s) (Z.to_nat i)) with (@None Z); [reflexivity|].
  symmetry. apply nth_error_None. lia.
Qed.

Lemma main_outside_array y m d :
  m < 0 \/ 14 < m -> main y m d initial = Undefined.
Proof.
  intros Hm. unfold main.
  rewrite (bind_ok _ _ _ _ _ (leap_adjust_initial y)).
  set (b := leap_test y). set (s0 := mkState 0 (table b) []).
  destruct (Z_le_gt_dec m 15) as [Hle|Hgt].
  - (* the loop stays inside; line 14 reads outside *)
    assert (Hloop : exists a, for_loop_exec m 1 s0 = Ok (tt, mkState a (table b) [])).
    { unfold for_loop_exec, s0. eexists. rewrite iterate_sum; cbn [sum month cout].
      - reflexivity.
      - lia.
      - rewrite table_length. lia.
      - apply table_bounds.
      - lia.
      - unfold INT_MAX. lia. }
    destruct Hloop as [a Hloop].
    rewrite (bind_ok _ _ _ _ _ Hloop).
    apply bind_undef. unfold add_day. apply bind_undef.
    apply month_get_outside. cbn [month]. rewrite table_length. lia.
  - apply bind_undef. unfold for_loop_exec, s0.
    apply iterate_past_end; cbn [month]; [lia|apply table_length|lia].
Qed.

(** X1. A run is defined exactly for the month indices 0 to 14: there every
    table access is inside [month[15]] and no addition overflows, for every
    year and every [int] day; any other month reads outside the array. *)
Theorem defined_iff_month_in_array (y m d : Z) :
  in_int d ->
  ((exists v, compute y m d = Ok [v]) <-> 0 <= m <= 14).
Proof.
  intros Hd. split.
  - intros [v Hv].
    destruct (Z_lt_le_dec m 0) as [Hneg|H0]; [|destruct (Z_le_gt_dec m 14) as [H14|H14]].
    + unfold compute in Hv. rewrite main_outside_array in Hv by lia. discriminate.
    + lia.
    + unfold compute in Hv. rewrite main_outside_array in Hv by lia. discriminate.
  - intros Hm. eexists. apply compute_capped; assumption.
Qed.

Lemma defined_iff_month_in_array_witness :
  (exists v, compute 2023 14 7 = Ok [v]) <-> 0 <= 14 <= 14.
Proof.
  apply (defined_iff_month_in_array 2023 14 7).
  unfold in_int, INT_MIN, INT_MAX. lia.
Defined.

(** X2. Closed form of the output on every defined run, whatever the year:
    the entries of the months before [m], plus the day capped from above by
    the entry [month[m]] (and not capped from below). *)
Theorem output_closed_form (y m d : Z) :
  0 <= m <= 14 -> in_int d ->
  compute y m d =
  Ok [days_before (leap_test y) m + Z.min d (month_entry y m)].
Proof.
  intros Hm Hd. rewrite compute_capped by assumption.
  rewrite capped_min, month_entry_table by assumption. reflexivity.
Qed.

Lemma output_closed_form_witness :
  compute 1900 2 40 =
  Ok [days_before (leap_test 1900) 2 + Z.min 40 (month_entry 1900 2)].
Proof.
  apply (output_closed_form 1900 2 40).
  - lia.
  - unfold in_int, INT_MIN, INT_MAX. lia.
Defined.

(** *** The leap test as a divisibility rule *)

(** X3. From year 0 on, line 8 is the Gregorian rule: the test succeeds
    exactly for the years divisible by 4 that are not divisible by 100
    unless they are divisible by 400. *)
Theorem leap_test_gregorian (y : Z) :
  0 <= y ->
  (leap_test y = true <-> (4 | y) /\ (~ (100 | y) \/ (400 | y))).
Proof.
  intros Hy. rewrite leap_test_nonneg by assumption. apply is_leap_divide.
Qed.

Lemma leap_test_gregorian_witness :
  leap_test 1900 = true <-> (4 | 1900) /\ (~ (100 | 1900) \/ (400 | 1900)).
Proof. apply (leap_test_gregorian 1900). lia. Defined.

(** X4. Before year 0 the truncating remainder [y%100] is never positive,
    and line 8 succeeds exactly for the multiples of 400. *)
Theorem leap_test_before_year_zero (y : Z) :
  y < 0 -> (leap_test y = true <-> (400 | y)).
Proof.
  intros Hy. rewrite leap_test_negative by assumption.
  rewrite Z.eqb_eq. apply Z.rem_divide. discriminate.
Qed.

Lemma leap_test_before_year_zero_witness :
  leap_test (-800) = true <-> (400 | -800).
Proof. apply (leap_test_before_year_zero (-800)). lia. Defined.

Lemma leap_test_period y : 0 <= y -> leap_test (y + 400) = leap_test y.
Proof.
  intros Hy. unfold leap_test.
  rewrite !Z.rem_mod_nonneg by lia.
  replace (y + 400) with (y + 100 * 4) at 1 by lia.
  replace (y + 400) with (y + 4 * 100) at 1 by lia.
  replace (y + 400) with (y + 1 * 400) by lia.
  rewrite !Z_mod_plus_full. reflexivity.
Qed.

(** X5. From year 0 on the whole run has period 400 in the year: when [y]
    and [y + 400] are both values of [int y], they give the same outcome
    for every month and day. *)
Theorem compute_period_400 (y m d : Z) :
  0 <= y -> in_int (y + 400) -> compute (y + 400) m d = compute y m d.
Proof.
  intros Hy _. unfold compute, main, leap_adjust.
  rewrite leap_test_period by assumption. reflexivity.
Qed.

Lemma compute_period_400_witness :
  compute (1624 + 400) 3 1 = compute 1624 3 1.
Proof.
  apply (compute_period_400 1624 3 1).
  - lia.
  - unfold in_int, INT_MIN, INT_MAX. lia.
Defined.

(** *** What a run leaves behind *)

Lemma add_day_cout m d s s' :
  add_day m d s = Ok (tt, s') -> cout s' = cout s.
Proof.
  unfold add_day, bind, month_get, get_sum, int_add, set_sum, ret, undefined.
  destruct (m <? 0); [discriminate|].
  destruct (nth_error (month s) (Z.to_nat m)) as [l|] eqn:E; [|discriminate].
  destruct (d >=? l).
  - rewrite E. destruct (in_intb (sum s + l)); [|discriminate].
    intros [= <-]. reflexivity.
  - destruct (in_intb (sum s + d)); [|discriminate]. intros [= <-]. reflexivity.
Qed.

(** X6. Every run that returns has written exactly one integer, the final
    value of [sum], and exits with status 0. *)
Theorem one_number_printed (y m d r : Z) (s : state) :
  main y m d initial = Ok (r, s) -> r = 0 /\ cout s = [sum s].
Proof.
  unfold main.
  rewrite (bind_ok _ _ _ _ _ (leap_adjust_initial y)).
  unfold bind at 1.
  destruct (for_loop_exec m 1 _) as [[[] s1]|] eqn:Hloop; [|discriminate].
  pose proof (for_loop_exec_sound m 1 (mkState 0 (table (leap_test y)) [])) as Hrel.
  rewrite Hloop in Hrel.
  destruct (for_loop_frame _ _ _ _ Hrel s1 eq_refl) as [_ Hc1].
  cbn [cout] in Hc1.
  unfold bind at 1.
  destruct (add_day m d s1) as [[[] s2]|] eqn:Hadd; [|discriminate].
  apply add_day_cout in Hadd.
  unfold finish, bind, get_sum, print, ret. intros [= <- <-].
  cbn [cout sum]. split; [reflexivity|].
  rewrite Hadd, Hc1. reflexivity.
Qed.

Lemma one_number_printed_witness :
  0 = 0 /\ cout (mkState 61 (table true) [61]) = [sum (mkState 61 (table true) [61])].
Proof.
  apply (one_number_printed 2024 3 1 0 (mkState 61 (table true) [61])).
  reflexivity.
Defined.

(** X7. Only the February entry of the table is ever written: when a run
    returns, the array still has 15 entries, February holds 29 or 28
    according to line 8, and every other entry holds its initial value. *)
Theorem only_february_is_written (y m d r : Z) (s : state) :
  main y m d initial = Ok (r, s) ->
  length (month s) = 15%nat /\
  nth 2 (month s) 0 = (if leap_test y then 29 else 28) /\
  forall i, i <> 2%nat -> nth i (month s) 0 = nth i (month initial) 0.
Proof.
  intros H. rewrite (table_frozen _ _ _ _ _ H).
  split; [reflexivity|]. split; [reflexivity|].
  intros i Hi. do 15 (destruct i as [|i]; [try reflexivity; contradiction|]).
  destruct i; reflexivity.
Qed.

Lemma only_february_is_written_witness :
  length (month (mkState 61 (table true) [61])) = 15%nat /\
  nth 2 (month (mkState 61 (table true) [61])) 0 =
    (if leap_test 2024 then 29 else 28) /\
  forall i, i <> 2%nat ->
    nth i (month (mkState 61 (table true) [61])) 0 = nth i (month initial) 0.
Proof.
  apply (only_february_is_written 2024 3 1 0 (mkState 61 (table true) [61])).
  reflexivity.
Defined.

(** *** The output as a numbering of the year's days *)

Lemma total_app l1 l2 : total (l1 ++ l2) = total l1 + total l2.
Proof.
  induction l1 as [|h t IH]; simpl.
  - reflexivity.
  - fold (total (t ++ l2)). fold (total t). rewrite IH. lia.
Qed.

Lemma days_before_step b m :
  1 <= m -> days_before b (m + 1) = days_before b m + days_in b m.
Proof.
  intros Hm. unfold days_before, months_before.
  replace (Z.to_nat (m + 1 - 1)) with (S (Z.to_nat (m - 1))) by lia.
  rewrite seq_S, !map_app, total_app. f_equal.
  cbn [map total fold_right]. rewrite Z.add_0_r. f_equal. lia.
Qed.

Lemma days_before_mono b m k :
  1 <= m -> days_before b m <= days_before b (m + Z.of_nat k).
Proof.
  intros Hm. induction k as [|k IH].
  - replace (m + Z.of_nat 0) with m by lia. lia.
  - replace (m + Z.of_nat (S k)) with (m + Z.of_nat k + 1) by lia.
    rewrite days_before_step by lia.
    pose proof (days_in_bounds b (m + Z.of_nat k)). lia.
Qed.

Lemma days_before_next b m1 m2 :
  1 <= m1 -> m1 < m2 ->
  days_before b m1 + days_in b m1 <= days_before b m2.
Proof.
  intros H1 Hlt. rewrite <- days_before_step by assumption.
  replace m2 with (m1 + 1 + Z.of_nat (Z.to_nat (m2 - m1 - 1))) by lia.
  apply days_before_mono. lia.
Qed.

Lemma valid_entry_in_int y m d :
  0 <= m <= 14 -> 1 <= d <= month_entry y m -> in_int d.
Proof.
  intros Hm Hd. rewrite month_entry_table in Hd by assumption.
  pose proof (days_in_bounds (leap_test y) m).
  unfold in_int, INT_MIN, INT_MAX. lia.
Qed.

Lemma compute_valid_entry y m d :
  1 <= m <= 12 -> 1 <= d <= month_entry y m ->
  compute y m d = Ok [days_before (leap_test y) m + d].
Proof.
  intros Hm Hd. assert (Hm' : 0 <= m <= 14) by lia.
  rewrite compute_capped by (assumption || eapply valid_entry_in_int; eauto).
  rewrite capped_min. rewrite month_entry_table in Hd by assumption.
  do 2 f_equal. lia.
Qed.

(** X8. The output respects calendar order within a year: of two dates
    with months 1-12 and days between 1 and the month's table entry, the
    earlier one (earlier month, or same month and earlier day) gets the
    strictly smaller number.  Distinct dates never share a number. *)
Theorem earlier_date_smaller_output (y m1 d1 m2 d2 : Z) :
  1 <= m1 <= 12 -> 1 <= m2 <= 12 ->
  1 <= d1 <= month_entry y m1 -> 1 <= d2 <= month_entry y m2 ->
  m1 < m2 \/ (m1 = m2 /\ d1 < d2) ->
  exists v1 v2,
    compute y m1 d1 = Ok [v1] /\ compute y m2 d2 = Ok [v2] /\ v1 < v2.
Proof.
  intros Hm1 Hm2 Hd1 Hd2 Hlt.
  exists (days_before (leap_test y) m1 + d1), (days_before (leap_test y) m2 + d2).
  rewrite !compute_valid_entry by assumption.
  split; [reflexivity|]. split; [reflexivity|].
  destruct Hlt as [Hlt|[-> Hlt]]; [|lia].
  pose proof (days_before_next (leap_test y) m1 m2 (proj1 Hm1) Hlt).
  rewrite month_entry_table in Hd1 by lia. lia.
Qed.

Lemma earlier_date_smaller_output_witness :
  exists v1 v2,
    compute 2024 2 29 = Ok [v1] /\ compute 2024 3 1 = Ok [v2] /\ v1 < v2.
Proof.
  apply (earlier_date_smaller_output 2024 2 29 3 1).
  - lia.
  - lia.
  - vm_compute. split; discriminate.
  - vm_compute. split; discriminate.
  - left. lia.
Defined.

(** X9. On the same dates the output lies between 1 and the number of days
    the program gives the year: 366 when line 8 succeeds, 365 otherwise. *)
Theorem output_within_year (y m d : Z) :
  1 <= m <= 12 -> 1 <= d <= month_entry y m ->
  exists v, compute y m d = Ok [v] /\
            1 <= v <= (if leap_test y then 366 else 365).
Proof.
  intros Hm Hd. exists (days_before (leap_test y) m + d).
  rewrite compute_valid_entry by assumption. split; [reflexivity|].
  rewrite month_entry_table in Hd by lia.
  assert (Hend : days_before (leap_test y) m + days_in (leap_test y) m
                 <= days_before (leap_test y) 13).
  { apply days_before_next; lia. }
  assert (H0 : 0 <= days_before (leap_test y) m).
  { apply days_before_bounds. lia. }
  assert (H13 : days_before (leap_test y) 13 = if leap_test y then 366 else 365).
  { destruct (leap_test y); reflexivity. }
  rewrite H13 in Hend. lia.
Qed.

Lemma output_within_year_witness :
  exists v, compute 2023 12 31 = Ok [v] /\
            1 <= v <= (if leap_test 2023 then 366 else 365).
Proof.
  apply (output_within_year 2023 12 31).
  - lia.
  - vm_compute. split; discriminate.
Defined.

Lemma month_of_day_number b n k :
  1 <= n <= days_before b (1 + Z.of_nat k) ->
  exists m, 1 <= m <= Z.of_nat k /\
            days_before b m < n <= days_before b m + days_in b m.
Proof.
  induction k as [|k IH]; intros Hn.
  - change (days_before b (1 + Z.of_nat 0)) with 0 in Hn. lia.
  - destruct (Z_le_gt_dec n (days_before b (1 + Z.of_nat k))) as [Hle|Hgt].
    + destruct IH as (m & Hm & Hb); [lia|]. exists m. split; [lia|exact Hb].
    + exists (1 + Z.of_nat k). split; [lia|].
      replace (1 + Z.of_nat (S k)) with (1 + Z.of_nat k + 1) in Hn by lia.
      rewrite days_before_step in Hn by lia. lia.
Qed.

(** X10. Every day number of the year is printed for some date: each [n]
    from 1 to 365 (366 when line 8 succeeds) is the output for a month 1-12
    and a day between 1 and that month's table entry.  With X8, the output
    numbers those dates one to one. *)
Theorem every_day_number_reached (y n : Z) :
  1 <= n <= (if leap_test y then 366 else 365) ->
  exists m d, 1 <= m <= 12 /\ 1 <= d <= month_entry y m /\
              compute y m d = Ok [n].
Proof.
  intros Hn. set (b := leap_test y) in *.
  destruct (month_of_day_number b n 12) as (m & Hm & Hb).
  { replace (days_before b (1 + Z.of_nat 12))
      with (if b then 366 else 365) by (destruct b; reflexivity).
    exact Hn. }
  assert (Hm12 : 1 <= m <= 12) by lia.
  assert (Hd : 1 <= n - days_before b m <= month_entry y m).
  { rewrite month_entry_table by lia. fold b. lia. }
  exists m, (n - days_before b m).
  split; [exact Hm12|]. split; [exact Hd|].
  rewrite compute_valid_entry by assumption. fold b. do 2 f_equal. lia.
Qed.

Lemma every_day_number_reached_witness :
  exists m d, 1 <= m <= 12 /\ 1 <= d <= month_entry 2024 m /\
              compute 2024 m d = Ok [60].
Proof.
  apply (every_day_number_reached 2024 60).
  vm_compute. split; discriminate.
Defined.

(** *** Edge inputs *)

(** X11. Month 0 is accepted silently: the loop does not run, line 14 reads
    the unused entry [month[0]] (zero), and the program prints 0 for every
    day from 0 on and the day itself for a negative day, whatever the year. *)
Theorem month_zero_output (y d : Z) :
  in_int d -> compute y 0 d = Ok [Z.min d 0].
Proof.
  intros Hd. rewrite compute_capped by (assumption || lia).
  rewrite capped_min. reflexivity.
Qed.

Lemma month_zero_output_witness : compute 2023 0 (-3) = Ok [Z.min (-3) 0].
Proof.
  apply (month_zero_output 2023 (-3)). unfold in_int, INT_MIN, INT_MAX. lia.
Defined.

(** *** The loop on any table *)

(** X12. Invariant of lines 11-13, on any store: for a table long enough to
    hold index [m - 1] and with entries between 0 and 31, the loop ends
    normally, has added exactly the entries [month[1] .. month[m-1]] to
    [sum], and has changed neither the table nor the output. *)
Theorem for_loop_adds_entries (m : Z) (s : state) :
  1 <= m ->
  (Z.to_nat m <= length (month s))%nat ->
  Forall (fun v => 0 <= v <= 31) (month s) ->
  0 <= sum s ->
  sum s + 31 * (m - 1) <= INT_MAX ->
  for_loop m 1 s
    (Ok (tt, mkState (sum s + total (firstn (Z.to_nat (m - 1)) (skipn 1 (month s))))
                     (month s) (cout s))).
Proof.
  intros Hm Hlen Hall Hs Hmax.
  pose proof (for_loop_exec_sound m 1 s) as H.
  unfold for_loop_exec in H.
  rewrite iterate_sum in H; [exact H|lia|lia|assumption|assumption|lia].
Qed.

Lemma for_loop_adds_entries_witness :
  for_loop 4 1 (mkState 5 [7; 1; 2; 3; 9] [])
    (Ok (tt, mkState (5 + total (firstn (Z.to_nat (4 - 1)) (skipn 1 [7; 1; 2; 3; 9])))
                     [7; 1; 2; 3; 9] [])).
Proof.
  apply (for_loop_adds_entries 4 (mkState 5 [7; 1; 2; 3; 9] [])).
  - lia.
  - simpl. lia.
  - simpl. repeat (constructor; [lia|]). constructor.
  - simpl. lia.
  - unfold INT_MAX. simpl. lia.
Defined.
